(** * Paginated brewery counting: a model of [brewery-async.py]

    The script counts the breweries of a U.S. state by walking the pages of
    the Open Brewery DB endpoint, and fans the same walk out over several
    states with [asyncio.gather].  This file embeds the two functions
    [get_brewery_count] and [get_brewery_counts_for_states] and proves the
    properties their specification states, and then what else the code shows
    of itself.

    Modelling choices.
    - Python integers are unbounded: [Z].
    - [requests.get] is the only access to the outside world.  It is a
      section variable [get] from the URL to the response, so that "the same
      API responses" means the same function.  A response carries its
      [status_code] and the decoded JSON array; the body is read by the code
      only after the status test succeeded.
    - The [while True] loop may run for ever (an endpoint that keeps serving
      full pages), so the loop takes fuel: one unit per iteration, [None] when
      it runs out.
    - The diagnostic [print] calls are not part of the model. *)

From Stdlib Require Import ZArith List String Ascii Bool Arith Lia.
From Stdlib Require Import DecimalString DecimalZ DecimalPos FinFun.
Import ListNotations.

Local Open Scope string_scope.
Local Open Scope list_scope.
Local Open Scope Z_scope.

(** ** Python values *)

Module Py.

(** The values stored in the dictionaries the script builds. *)
Inductive value : Type :=
| VStr (s : string)
| VInt (z : Z).

(** A [dict] keeps its keys in insertion order. *)
Definition dict : Type := list (string * value).

Fixpoint dict_get (k : string) (d : dict) : option value :=
  match d with
  | [] => None
  | (k', v) :: d' => if String.eqb k k' then Some v else dict_get k d'
  end.

(** [str(n)] for an integer, as an f-string renders it. *)
Definition str (z : Z) : string := NilZero.string_of_int (Z.to_int z).

(** [len(l)] *)
Definition len {A : Type} (l : list A) : Z := Z.of_nat (List.length l).

(** [not l] for a list: true exactly for the empty list. *)
Definition not_ {A : Type} (l : list A) : bool :=
  match l with
  | [] => true
  | _ :: _ => false
  end.

End Py.

(** ** HTTP responses *)

Module Http.

(** A brewery record is a JSON object; only the number of records on a page
    is ever looked at. *)
Definition brewery : Type := Py.dict.

Record Response : Type := mkResponse {
  status_code : Z;
  json : list brewery
}.

End Http.

Import Py Http.

(** ** The pagination loop *)

(** The local variables of [get_brewery_count] that change in the loop,
    together with the requests sent so far (oldest first). *)
Record Loop : Type := mkLoop {
  page : Z;
  count : Z;
  requests : list string
}.

(** How one pass through the body of [while True] ends. *)
Inductive Flow : Type :=
| Break (l : Loop)
| Continue (l : Loop).

Definition per_page : Z := 200.

(** The f-string of line 41. *)
Definition url (state : string) (per_page page : Z) : string :=
  ("https://api.openbrewerydb.org/v1/breweries?by_state=" ++ state
   ++ "&per_page=" ++ str per_page ++ "&page=" ++ str page)%string.

(** The dictionary of line 66. *)
Definition result (state : string) (count : Z) : dict :=
  [("state", VStr state); ("brewery_count", VInt count)].

Section Counter.

(** [req.get] *)
Variable get : string -> Response.

(** One pass through the loop body, lines 41 to 63. *)
Definition iteration (state : string) (l : Loop) : Flow :=
  let u := url state per_page (page l) in
  let response := get u in
  let sent := requests l ++ [u] in
  if negb (status_code response =? 200) then
    Break (mkLoop (page l) (count l) sent)
  else
    let breweries := json response in
    if not_ breweries then
      Break (mkLoop (page l) (count l) sent)
    else
      let count' := count l + len breweries in
      if len breweries <? per_page then
        Break (mkLoop (page l) count' sent)
      else
        Continue (mkLoop (page l + 1) count' sent).

(** [while True: ...] *)
Fixpoint while_true (fuel : nat) (state : string) (l : Loop) : option Loop :=
  match fuel with
  | O => None
  | S fuel' =>
      match iteration state l with
      | Break l' => Some l'
      | Continue l' => while_true fuel' state l'
      end
  end.

(** [get_brewery_count]: the returned dictionary, and the requests made. *)
Definition get_brewery_count (fuel : nat) (state : string)
  : option (dict * list string) :=
  match while_true fuel state (mkLoop 1 0 []) with
  | Some l => Some (result state (count l), requests l)
  | None => None
  end.

(** The serial driver of line 118: [[get_brewery_count(s) for s in states]]. *)
Fixpoint serial (fuel : nat) (states : list string) : option (list dict) :=
  match states with
  | [] => Some []
  | s :: states' =>
      match get_brewery_count fuel s with
      | Some (r, _) =>
          match serial fuel states' with
          | Some rs => Some (r :: rs)
          | None => None
          end
      | None => None
      end
  end.

(** *** The concurrent dispatcher

    [get_brewery_counts_for_states] builds one coroutine per state, each of
    which hands [get_brewery_count] to the executor, and awaits
    [asyncio.gather] over them.  The worker threads share nothing; what the
    run-time chooses is which worker makes its next request.  A task is a
    call of [get_brewery_count] in progress or its returned dictionary, a
    schedule is the sequence of choices (positions in the task list), and
    [gather] hands back the dictionaries by position once every task has
    returned. *)

Inductive Task : Type :=
| Running (state : string) (l : Loop)
| Finished (r : dict).

(** The chosen worker runs one pass of its loop. *)
Definition task_step (t : Task) : Task :=
  match t with
  | Running state l =>
      match iteration state l with
      | Break l' => Finished (result state (count l'))
      | Continue l' => Running state l'
      end
  | Finished r => Finished r
  end.

Fixpoint steps (n : nat) (t : Task) : Task :=
  match n with
  | O => t
  | S n' => steps n' (task_step t)
  end.

Fixpoint advance (i : nat) (pool : list Task) : list Task :=
  match pool, i with
  | [], _ => []
  | t :: pool', O => task_step t :: pool'
  | t :: pool', S i' => t :: advance i' pool'
  end.

Fixpoint run (schedule : list nat) (pool : list Task) : list Task :=
  match schedule with
  | [] => pool
  | i :: schedule' => run schedule' (advance i pool)
  end.

(** Line 100: [[async_get_brewery_count(state) for state in states]]. *)
Definition tasks (states : list string) : list Task :=
  map (fun state => Running state (mkLoop 1 0 [])) states.

(** [asyncio.gather] over the tasks: the results in the order of the arguments,
    available when all of them are. *)
Fixpoint gather (pool : list Task) : option (list dict) :=
  match pool with
  | [] => Some []
  | Finished r :: pool' =>
      match gather pool' with
      | Some rs => Some (r :: rs)
      | None => None
      end
  | Running _ _ :: _ => None
  end.

Definition get_brewery_counts_for_states
  (schedule : list nat) (states : list string) : option (list dict) :=
  gather (run schedule (tasks states)).

(** Whether the task at position [i] returns on its next pass. *)
Definition returns_at (i : nat) (pool : list Task) : bool :=
  match nth_error pool i with
  | Some (Running state l) =>
      match iteration state l with
      | Break _ => true
      | Continue _ => false
      end
  | _ => false
  end.

(** The positions of the tasks in the order in which they return. *)
Fixpoint completion_order (schedule : list nat) (pool : list Task) : list nat :=
  match schedule with
  | [] => []
  | i :: schedule' =>
      (if returns_at i pool then [i] else [])
      ++ completion_order schedule' (advance i pool)
  end.

(** How many times the schedule chooses position [i]. *)
Definition turns (i : nat) (schedule : list nat) : nat :=
  count_occ Nat.eq_dec schedule i.

(** The schedule as the tasks after the first one see it. *)
Fixpoint shift (schedule : list nat) : list nat :=
  match schedule with
  | [] => []
  | O :: schedule' => shift schedule'
  | S i :: schedule' => i :: shift schedule'
  end.

(** *** Vocabulary of the specification *)

(** [get_brewery_count(state)] returns [r]. *)
Definition returns (state : string) (r : dict) : Prop :=
  exists fuel log, get_brewery_count fuel state = Some (r, log).

(** The three stop conditions of the loop, on the response to a request. *)
Definition stops (r : Response) : Prop :=
  status_code r <> 200 \/ json r = [] \/ len (json r) < per_page.

(** The same as a test. *)
Definition stopsb (r : Response) : bool :=
  negb (status_code r =? 200) || not_ (json r) || (len (json r) <? per_page).

(** What a response adds to the running total: the items of a page that
    came with status 200. *)
Definition counted (r : Response) : Z :=
  if status_code r =? 200 then len (json r) else 0.

(** The page served for [state] and page number [p]. *)
Definition served (state : string) (p : Z) : Response :=
  get (url state per_page p).

(** [pages p n] is [p; p+1; ...], [n] page numbers. *)
Fixpoint pages (p : Z) (n : nat) : list Z :=
  match n with
  | O => []
  | S n' => p :: pages (p + 1) n'
  end.

(** The running total after the listed pages. *)
Definition total (state : string) (ps : list Z) : Z :=
  fold_right Z.add 0 (map (fun p => counted (served state p)) ps).

(** The number of items on the listed pages. *)
Definition items (state : string) (ps : list Z) : Z :=
  fold_right Z.add 0 (map (fun p => len (json (served state p))) ps).

(** The endpoint holds [records] records for [state] and serves them in
    pages of [per_page]: every page up to the one after the last full page
    comes with status 200 and holds what is left, at most [per_page]. *)
Definition holds (state : string) (records : Z) : Prop :=
  0 <= records /\
  forall p, 1 <= p <= records / per_page + 1 ->
    status_code (served state p) = 200 /\
    len (json (served state p)) = Z.min per_page (records - per_page * (p - 1)).

(** Two lists with the same elements. *)
Definition same_set {A : Type} (l1 l2 : list A) : Prop :=
  forall x, In x l1 <-> In x l2.

(** The pair a result dictionary stands for. *)
Definition pair_of (d : dict) : option (string * Z) :=
  match d with
  | [(_, VStr state); (_, VInt n)] => Some (state, n)
  | _ => None
  end.

End Counter.

(** ** Mocked endpoints *)

Definition ok (n : nat) : Response := mkResponse 200 (repeat [] n).

(** An endpoint that answers the listed URLs with status 200 and the given
    number of records, and everything else with 404. *)
Fixpoint mock (table : list (string * nat)) (u : string) : Response :=
  match table with
  | [] => mkResponse 404 []
  | (u', n) :: table' => if String.eqb u u' then ok n else mock table' u
  end.

(** Maryland as the specification's example has it: 100 records on page 1
    and 9 on page 2. *)
Definition maryland_100_9 : string -> Response :=
  mock [(url "maryland" per_page 1, 100%nat); (url "maryland" per_page 2, 9%nat)].

(** 457 records: two full pages and a short one. *)
Definition ohio_457 : string -> Response :=
  mock [(url "ohio" per_page 1, 200%nat); (url "ohio" per_page 2, 200%nat);
        (url "ohio" per_page 3, 57%nat)].

(** 400 records: two full pages, then an empty one. *)
Definition utah_400 : string -> Response :=
  mock [(url "utah" per_page 1, 200%nat); (url "utah" per_page 2, 200%nat);
        (url "utah" per_page 3, 0%nat)].

(** No record at all. *)
Definition guam_0 : string -> Response :=
  mock [(url "guam" per_page 1, 0%nat)].

(** A full page, then a failure (the second page is not in the table). *)
Definition iowa_fails : string -> Response :=
  mock [(url "iowa" per_page 1, 200%nat)].

(** The three states together. *)
Definition three_states : string -> Response :=
  mock [(url "ohio" per_page 1, 200%nat); (url "ohio" per_page 2, 200%nat);
        (url "ohio" per_page 3, 57%nat);
        (url "guam" per_page 1, 0%nat);
        (url "iowa" per_page 1, 200%nat)].

(** An endpoint that never runs dry: every page is full. *)
Definition endless : string -> Response := fun _ => ok 200.

(** An endpoint that answers every request with 404. *)
Definition nothing_served : string -> Response := mock [].

(** Ohio again, page for page as many records as [ohio_457] serves, but with
    other records, and an error body on the pages that are not there. *)
Definition named (n : nat) : Response :=
  mkResponse 200 (repeat [("name", VStr "brewery")] n).

Definition ohio_named (u : string) : Response :=
  if String.eqb u (url "ohio" per_page 1) then named 200
  else if String.eqb u (url "ohio" per_page 2) then named 200
  else if String.eqb u (url "ohio" per_page 3) then named 57
  else mkResponse 404 [[("message", VStr "Not Found")]].

Definition ohio_guam_iowa : list string := ["ohio"; "guam"; "iowa"].

(** Two schedules for three tasks.  Under the first the calls return in the
    order guam, iowa, ohio; under the second in the order iowa, ohio, guam. *)
Definition interleaved : list nat := [0; 1; 2; 0; 2; 0]%nat.
Definition guam_last : list nat := [2; 2; 0; 0; 0; 1]%nat.

(** One pass for each of three tasks: too few for a state of several pages. *)
Definition one_pass_each : list nat := [0; 1; 2]%nat.

Example url_maryland :
  url "maryland" per_page 1
  = "https://api.openbrewerydb.org/v1/breweries?by_state=maryland&per_page=200&page=1".
Proof. reflexivity. Qed.

Example maryland_first_page_only :
  get_brewery_count maryland_100_9 5 "maryland"
  = Some (result "maryland" 100, [url "maryland" per_page 1]).
Proof. vm_compute. reflexivity. Qed.

(** ** One pass of the loop *)

Section Pagination.

Variable get : string -> Response.

Lemma not_nil {A : Type} (l : list A) : not_ l = true <-> l = [].
Proof. destruct l; simpl; split; congruence. Qed.

Lemma stopsb_stops (r : Response) : stopsb r = true <-> stops r.
Proof.
  unfold stopsb, stops.
  rewrite !orb_true_iff, negb_true_iff, Z.eqb_neq, not_nil, Z.ltb_lt.
  tauto.
Qed.

Lemma stops_dec (r : Response) : {stops r} + {~ stops r}.
Proof.
  destruct (stopsb r) eqn:E.
  - left. now apply stopsb_stops.
  - right. intro H. apply stopsb_stops in H. congruence.
Qed.

Lemma counted_ok (r : Response) :
  status_code r = 200 -> counted r = len (json r).
Proof. intro H. unfold counted. now rewrite H. Qed.

Lemma counted_nonneg (r : Response) : 0 <= counted r.
Proof. unfold counted, len. destruct (status_code r =? 200); lia. Qed.

Lemma iteration_break (state : string) (l : Loop) :
  stops (served get state (page l)) ->
  iteration get state l
  = Break (mkLoop (page l) (count l + counted (served get state (page l)))
             (requests l ++ [url state per_page (page l)])).
Proof.
  unfold stops, iteration, counted, served.
  set (r := get (url state per_page (page l))).
  intros [H | [H | H]].
  - apply Z.eqb_neq in H. rewrite H. simpl. now rewrite Z.add_0_r.
  - rewrite H. destruct (status_code r =? 200); simpl; now rewrite Z.add_0_r.
  - apply Z.ltb_lt in H. rewrite H.
    destruct (status_code r =? 200); simpl.
    + destruct (json r); simpl; [now rewrite Z.add_0_r | reflexivity].
    + now rewrite Z.add_0_r.
Qed.

Lemma iteration_continue (state : string) (l : Loop) :
  ~ stops (served get state (page l)) ->
  iteration get state l
  = Continue (mkLoop (page l + 1) (count l + counted (served get state (page l)))
                (requests l ++ [url state per_page (page l)])).
Proof.
  unfold stops, iteration, counted, served.
  set (r := get (url state per_page (page l))).
  intro H.
  destruct (Z.eqb_spec (status_code r) 200) as [E | E]; [ | tauto].
  simpl. destruct (json r) eqn:J; [tauto | ].
  simpl not_. cbv iota.
  destruct (Z.ltb_spec (len (b :: l0)) per_page); [tauto | reflexivity].
Qed.

(** ** The whole loop *)

Lemma in_pages (n : nat) : forall a p,
  In p (pages a n) <-> a <= p < a + Z.of_nat n.
Proof.
  induction n as [ | n IH]; intros a p; simpl pages.
  - simpl. lia.
  - simpl In. rewrite IH. lia.
Qed.

Lemma pages_snoc (n : nat) : forall a,
  pages a (S n) = pages a n ++ [a + Z.of_nat n].
Proof.
  induction n as [ | n IH]; intro a.
  - simpl. now rewrite Z.add_0_r.
  - change (pages a (S (S n))) with (a :: pages (a + 1) (S n)).
    rewrite IH. simpl. do 3 f_equal. lia.
Qed.

Lemma pages_length (n : nat) : forall a, List.length (pages a n) = n.
Proof. induction n; intro a; simpl; auto. Qed.

Lemma total_app (state : string) (ps qs : list Z) :
  total get state (ps ++ qs) = total get state ps + total get state qs.
Proof.
  unfold total. induction ps as [ | p ps IH]; simpl; [reflexivity | ].
  rewrite IH. lia.
Qed.

Lemma total_one (state : string) (p : Z) :
  total get state [p] = counted (served get state p).
Proof. unfold total. simpl. lia. Qed.

Lemma total_nonneg (state : string) (ps : list Z) : 0 <= total get state ps.
Proof.
  unfold total. induction ps as [ | p ps IH]; simpl; [lia | ].
  pose proof (counted_nonneg (served get state p)). lia.
Qed.

(** Passes that do not stop only move the loop forward. *)
Lemma while_true_skip (state : string) (n : nat) : forall l,
  (forall p, In p (pages (page l) n) -> ~ stops (served get state p)) ->
  forall fuel,
    while_true get (n + fuel) state l
    = while_true get fuel state
        (mkLoop (page l + Z.of_nat n)
           (count l + total get state (pages (page l) n))
           (requests l ++ map (url state per_page) (pages (page l) n))).
Proof.
  induction n as [ | n IH]; intros l Hgo fuel.
  - destruct l as [p c rs]. simpl. now rewrite !Z.add_0_r, app_nil_r.
  - change (S n + fuel)%nat with (S (n + fuel)).
    cbn [while_true].
    rewrite iteration_continue by (apply Hgo; simpl; auto).
    rewrite IH by (intros p Hp; apply Hgo; simpl; auto).
    cbn [page count requests pages map].
    f_equal. f_equal.
    + lia.
    + change (page l :: pages (page l + 1) n)
        with ([page l] ++ pages (page l + 1) n).
      rewrite total_app, total_one. lia.
    + now rewrite <- app_assoc.
Qed.

Lemma while_true_stop (state : string) (l : Loop) (fuel : nat) :
  stops (served get state (page l)) ->
  while_true get (S fuel) state l
  = Some (mkLoop (page l) (count l + counted (served get state (page l)))
            (requests l ++ [url state per_page (page l)])).
Proof. intro H. cbn [while_true]. now rewrite iteration_break. Qed.

(** The loop is decided by the first page on which a stop condition holds:
    with [n] pages passed before it, the call needs [n + 1] passes. *)
Lemma get_brewery_count_run (state : string) (n : nat) :
  (forall p, 1 <= p <= Z.of_nat n -> ~ stops (served get state p)) ->
  stops (served get state (Z.of_nat n + 1)) ->
  forall fuel,
    get_brewery_count get fuel state
    = if (n <? fuel)%nat
      then Some (result state (total get state (pages 1 (S n))),
                 map (url state per_page) (pages 1 (S n)))
      else None.
Proof.
  intros Hgo Hstop fuel. unfold get_brewery_count.
  destruct (Nat.ltb_spec n fuel) as [Hlt | Hge].
  - replace fuel with (n + S (fuel - S n))%nat by lia.
    rewrite while_true_skip
      by (cbn [page]; intros p Hp; apply Hgo; apply in_pages in Hp; lia).
    cbn [page count requests].
    rewrite while_true_stop
      by (cbn [page]; now replace (1 + Z.of_nat n) with (Z.of_nat n + 1) by lia).
    cbn [page count requests].
    rewrite pages_snoc, total_app, total_one, map_app. simpl map.
    do 3 f_equal.
  - replace fuel with (fuel + 0)%nat by lia.
    rewrite while_true_skip
      by (cbn [page]; intros p Hp; apply Hgo; apply in_pages in Hp; lia).
    reflexivity.
Qed.

Lemma total_items (state : string) (ps : list Z) :
  (forall p, In p ps -> status_code (served get state p) = 200) ->
  total get state ps = items get state ps.
Proof.
  unfold total, items. induction ps as [ | p ps IH]; intro H; simpl.
  - reflexivity.
  - rewrite counted_ok by (apply H; simpl; auto).
    rewrite IH by (intros q Hq; apply H; simpl; auto). reflexivity.
Qed.

Lemma not_stops_status (r : Response) : ~ stops r -> status_code r = 200.
Proof. unfold stops. intro H. destruct (Z.eq_dec (status_code r) 200); tauto. Qed.

(** ** The claims on the pagination loop *)


(** C2: when the request for some page comes back with a status other than
    200, the call returns normally: what it returns is the dictionary with
    the state and, as its [brewery_count], the number of items of the pages
    fetched before, and the failed request is the last one made.  Whatever
    body the failed response carries is not read. *)
Theorem failed_request_returns_partial_count (state : string) (n : nat) :
  (forall p, 1 <= p <= Z.of_nat n -> ~ stops (served get state p)) ->
  status_code (served get state (Z.of_nat n + 1)) <> 200 ->
  forall fuel, (n < fuel)%nat ->
    get_brewery_count get fuel state
    = Some ([("state", VStr state);
             ("brewery_count", VInt (items get state (pages 1 n)))],
            map (url state per_page) (pages 1 (S n))).
Proof.
  intros Hgo Hfail fuel Hfuel.
  rewrite (get_brewery_count_run state n Hgo) by (left; exact Hfail).
  apply Nat.ltb_lt in Hfuel. rewrite Hfuel.
  rewrite pages_snoc, total_app, total_one.
  unfold counted at 1.
  replace (1 + Z.of_nat n) with (Z.of_nat n + 1) by lia.
  apply Z.eqb_neq in Hfail. rewrite Hfail.
  rewrite total_items, Z.add_0_r.
  - reflexivity.
  - intros p Hp. apply in_pages in Hp. apply not_stops_status, Hgo. lia.
Qed.

(** C3, as the code has it: when page 1 comes with status 200 and 100
    records, fewer than the 200 asked for, the call for [maryland] returns
    after this one request with the state [maryland] and the count 100; a
    second page is not asked for, whatever it holds. *)
Theorem short_first_page_is_the_last (fuel : nat) :
  status_code (served get "maryland" 1) = 200 ->
  len (json (served get "maryland" 1)) = 100 ->
  (0 < fuel)%nat ->
  exists r,
    get_brewery_count get fuel "maryland"
    = Some (r, [url "maryland" per_page 1])
    /\ dict_get "state" r = Some (VStr "maryland")
    /\ pair_of r = Some ("maryland", 100).
Proof.
  intros Hok Hlen Hfuel.
  assert (Hs : stops (served get "maryland" (Z.of_nat 0 + 1))).
  { right; right. simpl. rewrite Hlen. reflexivity. }
  rewrite (get_brewery_count_run "maryland" 0) by (simpl; (lia || exact Hs)).
  apply Nat.ltb_lt in Hfuel. rewrite Hfuel.
  eexists. split; [reflexivity | ].
  unfold total. simpl. rewrite (counted_ok _ Hok), Hlen.
  split; reflexivity.
Qed.

(** C6: when the first request is answered with an empty page, the call
    returns the dictionary with the state and the count 0, and that request
    is the only one it made. *)
Theorem empty_first_page_counts_zero (state : string) (fuel : nat) :
  status_code (served get state 1) = 200 ->
  json (served get state 1) = [] ->
  (0 < fuel)%nat ->
  get_brewery_count get fuel state
  = Some ([("state", VStr state); ("brewery_count", VInt 0)],
          [url state per_page 1]).
Proof.
  intros Hok Hempty Hfuel.
  rewrite (get_brewery_count_run state 0).
  - apply Nat.ltb_lt in Hfuel. rewrite Hfuel.
    unfold total. simpl. rewrite (counted_ok _ Hok), Hempty. reflexivity.
  - simpl. lia.
  - right; left. exact Hempty.
Qed.

(** *** An endpoint that serves a known number of records *)

Lemma holds_full_page (state : string) (records p : Z) :
  holds get state records ->
  1 <= p <= records / per_page ->
  ~ stops (served get state p) /\ counted (served get state p) = per_page.
Proof.
  intros [Hpos H] Hp. destruct (H p) as [Hok Hlen]; [lia | ].
  assert (Hmin : len (json (served get state p)) = per_page).
  { rewrite Hlen. unfold per_page in *. Z.div_mod_to_equations. lia. }
  split.
  - unfold stops. intros [Hs | [Hs | Hs]].
    + contradiction.
    + rewrite Hs in Hmin. discriminate.
    + lia.
  - now rewrite counted_ok.
Qed.

Lemma holds_last_page (state : string) (records : Z) :
  holds get state records ->
  status_code (served get state (records / per_page + 1)) = 200
  /\ len (json (served get state (records / per_page + 1)))
     = records mod per_page.
Proof.
  intros [Hpos H]. destruct (H (records / per_page + 1)) as [Hok Hlen].
  - unfold per_page. Z.div_mod_to_equations. lia.
  - split; [exact Hok | ]. rewrite Hlen.
    unfold per_page. Z.div_mod_to_equations. lia.
Qed.

Lemma total_full_pages (state : string) (n : nat) : forall a,
  (forall p, In p (pages a n) -> counted (served get state p) = per_page) ->
  total get state (pages a n) = per_page * Z.of_nat n.
Proof.
  induction n as [ | n IH]; intros a H.
  - reflexivity.
  - change (pages a (S n)) with ([a] ++ pages (a + 1) n).
    rewrite total_app, total_one, IH.
    + rewrite (H a) by (simpl; auto). lia.
    + intros p Hp. apply H. simpl. auto.
Qed.

(** The call against such an endpoint: the full pages, then the page after
    them, and the count is the number of records. *)
Lemma get_brewery_count_holds (state : string) (records : Z) :
  holds get state records ->
  forall fuel,
    get_brewery_count get fuel state
    = if (Z.to_nat (records / per_page) <? fuel)%nat
      then Some (result state records,
                 map (url state per_page)
                   (pages 1 (S (Z.to_nat (records / per_page)))))
      else None.
Proof.
  intros Hholds fuel.
  assert (Hq : 0 <= records / per_page).
  { destruct Hholds as [Hpos _]. unfold per_page. Z.div_mod_to_equations. lia. }
  set (n := Z.to_nat (records / per_page)).
  assert (Hn : Z.of_nat n = records / per_page) by (unfold n; lia).
  destruct (holds_last_page state records Hholds) as [Hok Hlen].
  rewrite (get_brewery_count_run state n).
  - destruct (n <? fuel)%nat; [ | reflexivity].
    rewrite pages_snoc, total_app, total_one, total_full_pages.
    + replace (1 + Z.of_nat n) with (records / per_page + 1) by lia.
      rewrite (counted_ok _ Hok), Hlen, Hn.
      do 3 f_equal. unfold per_page. Z.div_mod_to_equations. lia.
    + intros p Hp. apply in_pages in Hp.
      apply (holds_full_page state records p Hholds). lia.
  - intros p Hp. apply (holds_full_page state records p Hholds). lia.
  - rewrite Hn. right; right. rewrite Hlen.
    unfold per_page. Z.div_mod_to_equations. lia.
Qed.

(** C7: a state with a positive number of records that is a multiple of 200:
    every page up to [records / 200] is full, the call goes on to ask for one
    page more, which comes back empty, and returns the dictionary whose
    count is the number of records; it does not return before that extra
    request. *)
Theorem exact_multiple_needs_one_empty_page (state : string) (records : Z) :
  holds get state records ->
  0 < records ->
  records mod per_page = 0 ->
  (forall p, 1 <= p <= records / per_page ->
     len (json (served get state p)) = per_page)
  /\ json (served get state (records / per_page + 1)) = []
  /\ forall fuel,
       get_brewery_count get fuel state
       = if (Z.to_nat (records / per_page) <? fuel)%nat
         then Some ([("state", VStr state); ("brewery_count", VInt records)],
                    map (url state per_page)
                      (pages 1 (Z.to_nat (records / per_page)))
                    ++ [url state per_page (records / per_page + 1)])
         else None.
Proof.
  intros Hholds Hpos Hmod.
  assert (Hq : 0 <= records / per_page).
  { unfold per_page. Z.div_mod_to_equations. lia. }
  split; [ | split].
  - intros p Hp.
    destruct (holds_full_page state records p Hholds Hp) as [Hs Hc].
    rewrite <- Hc. symmetry. apply counted_ok, not_stops_status, Hs.
  - destruct (holds_last_page state records Hholds) as [_ Hlen].
    rewrite Hmod in Hlen. unfold len in Hlen.
    destruct (json (served get state (records / per_page + 1)));
      [reflexivity | discriminate].
  - intro fuel. rewrite (get_brewery_count_holds state records Hholds).
    rewrite pages_snoc, map_app. cbn [map].
    replace (1 + Z.of_nat (Z.to_nat (records / per_page)))
      with (records / per_page + 1) by lia.
    reflexivity.
Qed.

(** C8: a state whose number of records is not a multiple of 200: the page
    after the full ones is short (it holds the remainder, between 1 and 199
    items), the request for it is the last one the call makes, and the call
    returns the dictionary whose count is the number of records. *)
Theorem short_last_page_ends_the_loop (state : string) (records : Z) :
  holds get state records ->
  records mod per_page <> 0 ->
  0 < len (json (served get state (records / per_page + 1))) < per_page
  /\ forall fuel,
       get_brewery_count get fuel state
       = if (Z.to_nat (records / per_page) <? fuel)%nat
         then Some ([("state", VStr state); ("brewery_count", VInt records)],
                    map (url state per_page)
                      (pages 1 (Z.to_nat (records / per_page)))
                    ++ [url state per_page (records / per_page + 1)])
         else None.
Proof.
  intros Hholds Hmod.
  assert (Hq : 0 <= records / per_page).
  { destruct Hholds as [Hpos _]. unfold per_page. Z.div_mod_to_equations. lia. }
  split.
  - destruct (holds_last_page state records Hholds) as [_ Hlen].
    rewrite Hlen. unfold per_page in *. Z.div_mod_to_equations. lia.
  - intro fuel. rewrite (get_brewery_count_holds state records Hholds).
    rewrite pages_snoc, map_app. cbn [map].
    replace (1 + Z.of_nat (Z.to_nat (records / per_page)))
      with (records / per_page + 1) by lia.
    reflexivity.
Qed.

(** *** The state in the request and in the result *)

Lemma url_verbatim (state : string) (p : Z) :
  url state per_page p
  = ("https://api.openbrewerydb.org/v1/breweries?by_state=" ++ state
     ++ "&per_page=200&page=" ++ str p)%string.
Proof. unfold url. do 2 f_equal. Qed.

Lemma iteration_requests (state : string) (l : Loop) :
  exists l',
    (iteration get state l = Break l' \/ iteration get state l = Continue l')
    /\ requests l' = requests l ++ [url state per_page (page l)].
Proof.
  destruct (stops_dec (served get state (page l))) as [Hs | Hs].
  - eexists. split; [left; apply (iteration_break state l Hs) | reflexivity].
  - eexists. split; [right; apply (iteration_continue state l Hs) | reflexivity].
Qed.

Lemma while_true_requests (P : string -> Prop) (state : string) :
  (forall p, P (url state per_page p)) ->
  forall fuel l l',
    Forall P (requests l) ->
    while_true get fuel state l = Some l' ->
    Forall P (requests l').
Proof.
  intros HP fuel. induction fuel as [ | fuel IH]; intros l l' Hl H.
  - discriminate.
  - cbn [while_true] in H.
    destruct (iteration_requests state l) as [l1 [[E | E] Hreq]];
      rewrite E in H.
    + inversion H; subst l'. rewrite Hreq.
      apply Forall_app. split; [exact Hl | constructor; [apply HP | constructor]].
    + apply (IH l1); [ | exact H]. rewrite Hreq.
      apply Forall_app. split; [exact Hl | constructor; [apply HP | constructor]].
Qed.

(** C9: the state goes into the URL of every request and into the [state]
    entry of the result as the very string the caller passed: no change of
    case, no substitution, no other rewriting. *)
Theorem state_is_used_verbatim (state : string) :
  (forall l, exists l',
      (iteration get state l = Break l' \/ iteration get state l = Continue l')
      /\ requests l'
         = requests l
           ++ [("https://api.openbrewerydb.org/v1/breweries?by_state=" ++ state
                ++ "&per_page=200&page=" ++ str (page l))%string])
  /\ forall fuel r log,
       get_brewery_count get fuel state = Some (r, log) ->
       dict_get "state" r = Some (VStr state)
       /\ Forall (fun u => exists p,
                    u = ("https://api.openbrewerydb.org/v1/breweries?by_state="
                         ++ state ++ "&per_page=200&page=" ++ str p)%string) log.
Proof.
  split.
  - intro l. rewrite <- url_verbatim. apply iteration_requests.
  - intros fuel r log H. unfold get_brewery_count in H.
    destruct (while_true get fuel state (mkLoop 1 0 [])) as [l' | ] eqn:E;
      [ | discriminate].
    inversion H; subst r log. split; [reflexivity | ].
    apply (while_true_requests _ state) with (fuel := fuel) (l := mkLoop 1 0 []).
    + intro p. exists p. apply url_verbatim.
    + constructor.
    + exact E.
Qed.

(** *** Termination *)

(** Below a page on which the loop would stop there is a first such page. *)
Lemma first_stop (state : string) (k : nat) : forall a,
  stops (served get state (a + Z.of_nat k)) ->
  exists m : nat,
    (m <= k)%nat
    /\ (forall p, a <= p < a + Z.of_nat m -> ~ stops (served get state p))
    /\ stops (served get state (a + Z.of_nat m)).
Proof.
  induction k as [ | k IH]; intros a H.
  - exists 0%nat. split; [lia | split; [intros; lia | exact H]].
  - destruct (stops_dec (served get state a)) as [Hs | Hs].
    + exists 0%nat. split; [lia | split; [intros; lia | ]].
      now rewrite Z.add_0_r.
    + destruct (IH (a + 1)) as [m [Hm [Hgo Hstop]]].
      { now replace (a + 1 + Z.of_nat k) with (a + Z.of_nat (S k)) by lia. }
      exists (S m). split; [lia | split].
      * intros p Hp. destruct (Z.eq_dec p a) as [-> | Hne]; [exact Hs | ].
        apply Hgo. lia.
      * now replace (a + Z.of_nat (S m)) with (a + 1 + Z.of_nat m) by lia.
Qed.

(** C10: if some page, whatever its number [p], comes with a status other
    than 200, empty, or with fewer than 200 items, the call returns: [p]
    passes of the loop always suffice, and it has made at most [p] requests. *)
Theorem pagination_terminates (state : string) (p : Z) :
  1 <= p ->
  stops (served get state p) ->
  exists r log,
    (List.length log <= Z.to_nat p)%nat
    /\ forall fuel, (Z.to_nat p <= fuel)%nat ->
         get_brewery_count get fuel state = Some (r, log).
Proof.
  intros Hp Hstop.
  destruct (first_stop state (Z.to_nat (p - 1)) 1) as [m [Hm [Hgo Hm_stop]]].
  { now replace (1 + Z.of_nat (Z.to_nat (p - 1))) with p by lia. }
  exists (result state (total get state (pages 1 (S m)))).
  exists (map (url state per_page) (pages 1 (S m))).
  split.
  - rewrite length_map, pages_length. lia.
  - intros fuel Hfuel.
    rewrite (get_brewery_count_run state m).
    + assert (E : (m <? fuel)%nat = true) by (apply Nat.ltb_lt; lia).
      now rewrite E.
    + intros q Hq. apply Hgo. lia.
    + now replace (Z.of_nat m + 1) with (1 + Z.of_nat m) by lia.
Qed.

End Pagination.

(** ** The dispatcher *)

Section Dispatcher.

Variable get : string -> Response.

Lemma while_true_more (state : string) (fuel : nat) : forall l l',
  while_true get fuel state l = Some l' ->
  forall fuel', (fuel <= fuel')%nat -> while_true get fuel' state l = Some l'.
Proof.
  induction fuel as [ | fuel IH]; intros l l' H fuel' Hle; [discriminate | ].
  destruct fuel' as [ | fuel']; [lia | ].
  cbn [while_true] in *.
  destruct (iteration get state l) as [l1 | l1]; [exact H | ].
  apply IH; [exact H | lia].
Qed.

Lemma get_brewery_count_more (state : string) (fuel fuel' : nat) r log :
  get_brewery_count get fuel state = Some (r, log) ->
  (fuel <= fuel')%nat ->
  get_brewery_count get fuel' state = Some (r, log).
Proof.
  unfold get_brewery_count. intros H Hle.
  destruct (while_true get fuel state (mkLoop 1 0 [])) as [l | ] eqn:E;
    [ | discriminate].
  now rewrite (while_true_more state fuel _ _ E fuel' Hle).
Qed.

Lemma returns_once (state : string) (r1 r2 : dict) :
  returns get state r1 -> returns get state r2 -> r1 = r2.
Proof.
  intros [f1 [log1 H1]] [f2 [log2 H2]].
  apply (get_brewery_count_more _ _ (Nat.max f1 f2)) in H1; [ | lia].
  apply (get_brewery_count_more _ _ (Nat.max f1 f2)) in H2; [ | lia].
  congruence.
Qed.

Lemma serial_more (fuel fuel' : nat) : forall states rs,
  serial get fuel states = Some rs ->
  (fuel <= fuel')%nat ->
  serial get fuel' states = Some rs.
Proof.
  induction states as [ | s states IH]; intros rs H Hle; [exact H | ].
  cbn [serial] in *.
  destruct (get_brewery_count get fuel s) as [[r log] | ] eqn:E; [ | discriminate].
  rewrite (get_brewery_count_more s fuel fuel' r log E Hle).
  destruct (serial get fuel states) as [rs' | ] eqn:E'; [ | discriminate].
  now rewrite (IH rs' eq_refl Hle).
Qed.

(** *** One task *)

Lemma steps_finished (n : nat) (r : dict) : steps get n (Finished r) = Finished r.
Proof. induction n as [ | n IH]; [reflexivity | exact IH]. Qed.

Lemma steps_while (state : string) (fuel : nat) : forall l l',
  while_true get fuel state l = Some l' ->
  forall n, (fuel <= n)%nat ->
    steps get n (Running state l) = Finished (result state (count l')).
Proof.
  induction fuel as [ | fuel IH]; intros l l' H n Hle; [discriminate | ].
  destruct n as [ | n]; [lia | ].
  cbn [while_true] in H. cbn [steps task_step].
  destruct (iteration get state l) as [l1 | l1].
  - inversion H; subst l1. apply steps_finished.
  - apply (IH l1 l' H). lia.
Qed.

Lemma steps_returned (state : string) (n : nat) : forall l r,
  steps get n (Running state l) = Finished r ->
  exists l', while_true get n state l = Some l' /\ r = result state (count l').
Proof.
  induction n as [ | n IH]; intros l r H; [discriminate | ].
  cbn [steps task_step] in H. cbn [while_true].
  destruct (iteration get state l) as [l1 | l1].
  - rewrite steps_finished in H. inversion H. now exists l1.
  - now apply IH.
Qed.

(** *** The pool *)

Lemma run_nil (schedule : list nat) : run get schedule [] = [].
Proof. induction schedule as [ | i schedule IH]; [reflexivity | destruct i; exact IH]. Qed.

(** The first task moves once for every 0 in the schedule, and the others
    see the schedule shifted: the interleaving does not matter. *)
Lemma run_cons (schedule : list nat) : forall t pool,
  run get schedule (t :: pool)
  = steps get (turns 0 schedule) t :: run get (shift schedule) pool.
Proof.
  induction schedule as [ | i schedule IH]; intros t pool; [reflexivity | ].
  destruct i as [ | i]; cbn [run advance shift]; rewrite IH; reflexivity.
Qed.

Lemma turns_shift (i : nat) (schedule : list nat) :
  turns i (shift schedule) = turns (S i) schedule.
Proof.
  unfold turns. induction schedule as [ | j schedule IH]; [reflexivity | ].
  destruct j as [ | j]; cbn [shift count_occ].
  - destruct (Nat.eq_dec 0 (S i)); [discriminate | exact IH].
  - destruct (Nat.eq_dec j i), (Nat.eq_dec (S j) (S i)); try lia; now rewrite IH.
Qed.

Lemma turns_le_length (i : nat) (schedule : list nat) :
  (turns i schedule <= List.length schedule)%nat.
Proof. apply count_occ_bound. Qed.

(** *** Gathered results against serial calls *)

(** What [gather] hands back lists, position by position, what each call
    returns, and the serial driver returns the same list. *)
Lemma gathered_returns : forall states schedule rs,
  get_brewery_counts_for_states get schedule states = Some rs ->
  Forall2 (returns get) states rs.
Proof.
  unfold get_brewery_counts_for_states.
  induction states as [ | s states IH]; intros schedule rs H.
  - cbn [tasks map] in H. rewrite run_nil in H. inversion H. constructor.
  - cbn [tasks map] in H. rewrite run_cons in H. cbn [gather] in H.
    destruct (steps get (turns 0 schedule) (Running s (mkLoop 1 0 [])))
      as [ | r] eqn:E; [discriminate | ].
    destruct (gather (run get (shift schedule) (map _ states)))
      as [rs' | ] eqn:E'; [ | discriminate].
    inversion H; subst rs. constructor.
    + destruct (steps_returned _ _ _ _ E) as [l' [Hl' ->]].
      exists (turns 0 schedule), (requests l').
      unfold get_brewery_count. now rewrite Hl'.
    + apply (IH (shift schedule)). exact E'.
Qed.

Lemma gathered_serial : forall states schedule rs,
  get_brewery_counts_for_states get schedule states = Some rs ->
  forall fuel,
    (forall i, (i < List.length states)%nat -> (turns i schedule <= fuel)%nat) ->
    serial get fuel states = Some rs.
Proof.
  unfold get_brewery_counts_for_states.
  induction states as [ | s states IH]; intros schedule rs H fuel Hfuel.
  - cbn [tasks map] in H. rewrite run_nil in H. exact H.
  - cbn [tasks map] in H. rewrite run_cons in H. cbn [gather] in H.
    destruct (steps get (turns 0 schedule) (Running s (mkLoop 1 0 [])))
      as [ | r] eqn:E; [discriminate | ].
    destruct (gather (run get (shift schedule) (map _ states)))
      as [rs' | ] eqn:E'; [ | discriminate].
    inversion H; subst rs.
    destruct (steps_returned _ _ _ _ E) as [l' [Hl' ->]].
    cbn [serial]. unfold get_brewery_count.
    rewrite (while_true_more s _ _ _ Hl' fuel) by (apply Hfuel; simpl; lia).
    rewrite (IH (shift schedule) rs' E' fuel); [reflexivity | ].
    intros i Hi. rewrite turns_shift. apply Hfuel. simpl. lia.
Qed.

(** Every schedule that gives each task the passes its call needs makes
    [gather] hand back the serial list. *)
Lemma serial_gathered : forall states fuel rs,
  serial get fuel states = Some rs ->
  forall schedule,
    (forall i, (i < List.length states)%nat -> (fuel <= turns i schedule)%nat) ->
    get_brewery_counts_for_states get schedule states = Some rs.
Proof.
  unfold get_brewery_counts_for_states.
  induction states as [ | s states IH]; intros fuel rs H schedule Hturns.
  - cbn [tasks map]. rewrite run_nil. exact H.
  - cbn [serial] in H. unfold get_brewery_count in H.
    destruct (while_true get fuel s (mkLoop 1 0 [])) as [l' | ] eqn:E;
      [ | discriminate].
    destruct (serial get fuel states) as [rs' | ] eqn:E'; [ | discriminate].
    inversion H; subst rs.
    cbn [tasks map]. rewrite run_cons. cbn [gather].
    rewrite (steps_while s fuel _ _ E) by (apply Hturns; simpl; lia).
    change (map (fun state => Running state (mkLoop 1 0 [])) states)
      with (tasks states).
    rewrite (IH fuel rs' E' (shift schedule)); [reflexivity | ].
    intros i Hi. rewrite turns_shift. apply Hturns. simpl. lia.
Qed.

Lemma returns_unique : forall states rs1 rs2,
  Forall2 (returns get) states rs1 ->
  Forall2 (returns get) states rs2 ->
  rs1 = rs2.
Proof.
  induction states as [ | s states IH]; intros rs1 rs2 H1 H2;
    inversion H1; inversion H2; subst; [reflexivity | ].
  f_equal; [eapply returns_once; eassumption | now apply IH].
Qed.

Lemma serial_returns : forall states fuel rs,
  serial get fuel states = Some rs -> Forall2 (returns get) states rs.
Proof.
  induction states as [ | s states IH]; intros fuel rs H.
  - inversion H. constructor.
  - cbn [serial] in H.
    destruct (get_brewery_count get fuel s) as [[r log] | ] eqn:E; [ | discriminate].
    destruct (serial get fuel states) as [rs' | ] eqn:E'; [ | discriminate].
    inversion H; subst rs. constructor.
    + now exists fuel, log.
    + now apply (IH fuel).
Qed.

Lemma returns_state (state : string) (r : dict) :
  returns get state r -> exists n, r = result state n.
Proof.
  intros [fuel [log H]]. unfold get_brewery_count in H.
  destruct (while_true get fuel state (mkLoop 1 0 [])) as [l | ]; [ | discriminate].
  inversion H. now exists (count l).
Qed.

(** C4: whatever the schedule under which the per-state calls make their
    requests and return, what the dispatcher hands back has one result per
    input state, the result at each position being what [get_brewery_count]
    returns for the state at that position; two schedules cannot give
    different lists; and every schedule that lets each call make the passes
    it needs does give the list. *)
Theorem results_follow_input_order (states : list string) :
  (forall schedule rs,
      get_brewery_counts_for_states get schedule states = Some rs ->
      List.length rs = List.length states
      /\ forall i state,
          nth_error states i = Some state ->
          exists r,
            nth_error rs i = Some r
            /\ returns get state r
            /\ dict_get "state" r = Some (VStr state))
  /\ (forall schedule1 schedule2 rs1 rs2,
        get_brewery_counts_for_states get schedule1 states = Some rs1 ->
        get_brewery_counts_for_states get schedule2 states = Some rs2 ->
        rs1 = rs2)
  /\ (forall fuel,
        (forall state, In state states ->
           exists r log, get_brewery_count get fuel state = Some (r, log)) ->
        forall schedule,
          (forall i, (i < List.length states)%nat ->
             (fuel <= turns i schedule)%nat) ->
          exists rs, get_brewery_counts_for_states get schedule states = Some rs).
Proof.
  split; [ | split].
  - intros schedule rs H. apply gathered_returns in H. split.
    + symmetry. eapply Forall2_length. exact H.
    + induction H as [ | s r states rs Hr _ IH]; intros i state Hi.
      * destruct i; discriminate.
      * destruct i as [ | i]; cbn [nth_error] in *.
        -- inversion Hi; subst s. exists r. split; [reflexivity | ].
           split; [exact Hr | ].
           destruct (returns_state _ _ Hr) as [n ->]. reflexivity.
        -- now apply IH.
  - intros schedule1 schedule2 rs1 rs2 H1 H2.
    apply (returns_unique states); eapply gathered_returns; eassumption.
  - intros fuel Hall schedule Hturns.
    assert (Hserial : exists rs, serial get fuel states = Some rs).
    { clear Hturns. induction states as [ | s states' IH].
      - now exists [].
      - destruct (Hall s) as [r [log Hr]]; [simpl; auto | ].
        destruct IH as [rs' Hrs']; [intros; apply Hall; simpl; auto | ].
        exists (r :: rs'). cbn [serial]. now rewrite Hr, Hrs'. }
    destruct Hserial as [rs Hrs]. exists rs.
    now apply (serial_gathered states fuel).
Qed.

(** C5: given the same responses, the concurrent dispatcher and the serial
    loop over the same states produce the same set of (state, count) pairs
    (indeed the same list); the serial loop returns whenever the dispatcher
    does, and the dispatcher returns under every schedule that gives each
    call the passes the serial loop needed. *)
Theorem concurrent_equals_serial (states : list string) :
  (forall schedule fuel rs rs',
      get_brewery_counts_for_states get schedule states = Some rs ->
      serial get fuel states = Some rs' ->
      same_set (map pair_of rs) (map pair_of rs') /\ same_set rs rs')
  /\ (forall schedule rs,
        get_brewery_counts_for_states get schedule states = Some rs ->
        serial get (List.length schedule) states = Some rs)
  /\ (forall fuel rs,
        serial get fuel states = Some rs ->
        forall schedule,
          (forall i, (i < List.length states)%nat ->
             (fuel <= turns i schedule)%nat) ->
          get_brewery_counts_for_states get schedule states = Some rs).
Proof.
  split; [ | split].
  - intros schedule fuel rs rs' H H'.
    assert (E : rs = rs').
    { apply (returns_unique states).
      - eapply gathered_returns; eassumption.
      - eapply serial_returns; eassumption. }
    subst rs'. split; intro x; reflexivity.
  - intros schedule rs H. apply (gathered_serial states schedule rs H).
    intros i _. apply turns_le_length.
  - intros fuel rs H schedule Hturns. now apply (serial_gathered states fuel).
Qed.

End Dispatcher.

(** ** The claims on the mocked endpoints *)

Lemma mock_goes (get : string -> Response) (state : string) (p : Z) :
  stopsb (served get state p) = false -> ~ stops (served get state p).
Proof. intros H Hs. apply stopsb_stops in Hs. congruence. Qed.

Lemma mock_stops (get : string -> Response) (state : string) (p : Z) :
  stopsb (served get state p) = true -> stops (served get state p).
Proof. apply stopsb_stops. Qed.

Lemma ohio_457_holds : holds ohio_457 "ohio" 457.
Proof.
  split; [lia | ]. intros p Hp.
  change (457 / per_page + 1) with 3 in Hp.
  assert (p = 1 \/ p = 2 \/ p = 3) as [-> | [-> | ->]] by lia;
    vm_compute; split; reflexivity.
Qed.

Lemma utah_400_holds : holds utah_400 "utah" 400.
Proof.
  split; [lia | ]. intros p Hp.
  change (400 / per_page + 1) with 3 in Hp.
  assert (p = 1 \/ p = 2 \/ p = 3) as [-> | [-> | ->]] by lia;
    vm_compute; split; reflexivity.
Qed.



(** Iowa: a full page, then a 404; the 200 items of page 1 are returned. *)
Lemma failed_request_returns_partial_count_witness :
  get_brewery_count iowa_fails 2 "iowa"
  = Some ([("state", VStr "iowa"); ("brewery_count", VInt 200)],
          [url "iowa" 200 1; url "iowa" 200 2]).
Proof.
  rewrite (failed_request_returns_partial_count iowa_fails "iowa" 1).
  - vm_compute. reflexivity.
  - intros p Hp. replace p with 1 by (simpl in Hp; lia).
    apply mock_goes. vm_compute. reflexivity.
  - intro E. vm_compute in E. discriminate E.
  - lia.
Defined.

(** The mocked Maryland endpoint of the example. *)
Lemma short_first_page_is_the_last_witness :
  exists r,
    get_brewery_count maryland_100_9 1 "maryland"
    = Some (r, [url "maryland" per_page 1])
    /\ dict_get "state" r = Some (VStr "maryland")
    /\ pair_of r = Some ("maryland", 100).
Proof.
  apply (short_first_page_is_the_last maryland_100_9 1).
  - vm_compute. reflexivity.
  - vm_compute. reflexivity.
  - lia.
Defined.

(** C3 as stated fails: against the mocked endpoint of the example the call
    returns 100 after the first page, and no run of it returns a dictionary
    that holds 109 under any key. *)
Lemma maryland_example_counts_100 :
  get_brewery_count maryland_100_9 2 "maryland"
  = Some (result "maryland" 100, [url "maryland" per_page 1])
  /\ ~ (exists fuel r log,
          get_brewery_count maryland_100_9 fuel "maryland" = Some (r, log)
          /\ In (VInt 109) (map snd r)).
Proof.
  split; [vm_compute; reflexivity | ].
  intros [fuel [r [log [H Hin]]]].
  rewrite (get_brewery_count_run maryland_100_9 "maryland" 0) in H.
  - destruct (0 <? fuel)%nat; [ | discriminate].
    inversion H; subst r. vm_compute in Hin.
    destruct Hin as [E | [E | []]]; discriminate E.
  - simpl. lia.
  - apply mock_stops. vm_compute. reflexivity.
Qed.

(** Guam: one request, count 0. *)
Lemma empty_first_page_counts_zero_witness :
  get_brewery_count guam_0 1 "guam"
  = Some ([("state", VStr "guam"); ("brewery_count", VInt 0)],
          [url "guam" per_page 1]).
Proof.
  apply (empty_first_page_counts_zero guam_0 "guam" 1).
  - vm_compute. reflexivity.
  - vm_compute. reflexivity.
  - lia.
Defined.

(** Utah, 400 records: the third request is answered with an empty page. *)
Lemma exact_multiple_needs_one_empty_page_witness :
  json (served utah_400 "utah" 3) = []
  /\ get_brewery_count utah_400 3 "utah"
     = Some ([("state", VStr "utah"); ("brewery_count", VInt 400)],
             [url "utah" 200 1; url "utah" 200 2; url "utah" 200 3])
  /\ get_brewery_count utah_400 2 "utah" = None.
Proof.
  destruct (exact_multiple_needs_one_empty_page utah_400 "utah" 400)
    as [_ [Hempty Hrun]].
  - exact utah_400_holds.
  - lia.
  - reflexivity.
  - split; [exact Hempty | ].
    split; rewrite Hrun; vm_compute; reflexivity.
Defined.

(** Ohio, 457 records: the third page holds 57 and is the last request. *)
Lemma short_last_page_ends_the_loop_witness :
  0 < len (json (served ohio_457 "ohio" 3)) < per_page
  /\ get_brewery_count ohio_457 3 "ohio"
     = Some ([("state", VStr "ohio"); ("brewery_count", VInt 457)],
             [url "ohio" 200 1; url "ohio" 200 2; url "ohio" 200 3]).
Proof.
  destruct (short_last_page_ends_the_loop ohio_457 "ohio" 457)
    as [Hshort Hrun].
  - exact ohio_457_holds.
  - intro E. vm_compute in E. discriminate E.
  - split; [exact Hshort | ].
    rewrite Hrun. vm_compute. reflexivity.
Defined.

(** The three requests for Ohio carry [ohio] as given. *)
Lemma state_is_used_verbatim_witness :
  dict_get "state" (result "ohio" 457) = Some (VStr "ohio")
  /\ Forall (fun u => exists p,
               u = ("https://api.openbrewerydb.org/v1/breweries?by_state="
                    ++ "ohio" ++ "&per_page=200&page=" ++ str p)%string)
       [url "ohio" 200 1; url "ohio" 200 2; url "ohio" 200 3].
Proof.
  apply (proj2 (state_is_used_verbatim ohio_457 "ohio") 3%nat).
  vm_compute. reflexivity.
Defined.

(** Page 5 of Ohio is a 404: five passes are enough (three are used). *)
Lemma pagination_terminates_witness :
  exists r log,
    (List.length log <= Z.to_nat 5)%nat
    /\ forall fuel, (Z.to_nat 5 <= fuel)%nat ->
         get_brewery_count ohio_457 fuel "ohio" = Some (r, log).
Proof.
  apply (pagination_terminates ohio_457 "ohio" 5).
  - lia.
  - apply mock_stops. vm_compute. reflexivity.
Defined.

(** The two schedules let the calls return in different orders. *)
Example completion_orders_differ :
  completion_order three_states interleaved (tasks ohio_guam_iowa) = [1; 2; 0]%nat
  /\ completion_order three_states guam_last (tasks ohio_guam_iowa) = [2; 0; 1]%nat.
Proof. split; vm_compute; reflexivity. Qed.

(** Both schedules give the results in the order ohio, guam, iowa. *)
Lemma results_follow_input_order_witness :
  get_brewery_counts_for_states three_states interleaved ohio_guam_iowa
  = Some [result "ohio" 457; result "guam" 0; result "iowa" 200]
  /\ get_brewery_counts_for_states three_states guam_last ohio_guam_iowa
     = Some [result "ohio" 457; result "guam" 0; result "iowa" 200]
  /\ (List.length [result "ohio" 457; result "guam" 0; result "iowa" 200]
      = List.length ohio_guam_iowa
      /\ forall i state,
          nth_error ohio_guam_iowa i = Some state ->
          exists r,
            nth_error [result "ohio" 457; result "guam" 0; result "iowa" 200] i
            = Some r
            /\ returns three_states state r
            /\ dict_get "state" r = Some (VStr state)).
Proof.
  split; [vm_compute; reflexivity | ].
  split; [vm_compute; reflexivity | ].
  apply (proj1 (results_follow_input_order three_states ohio_guam_iowa) interleaved).
  vm_compute. reflexivity.
Defined.

(** The list gathered under [guam_last] against the serial list. *)
Lemma concurrent_equals_serial_witness :
  same_set
    (map pair_of [result "ohio" 457; result "guam" 0; result "iowa" 200])
    (map pair_of [result "ohio" 457; result "guam" 0; result "iowa" 200])
  /\ same_set [result "ohio" 457; result "guam" 0; result "iowa" 200]
       [result "ohio" 457; result "guam" 0; result "iowa" 200].
Proof.
  apply (proj1 (concurrent_equals_serial three_states ohio_guam_iowa)
           guam_last 3%nat).
  - vm_compute. reflexivity.
  - vm_compute. reflexivity.
Defined.

(** * Further properties of the code *)

(** ** The loop, whatever the endpoint *)

Section Loop_facts.

Variable get : string -> Response.

(** A loop that has returned has met its first stopping page. *)
Lemma while_true_returned (state : string) (fuel : nat) : forall l l',
  while_true get fuel state l = Some l' ->
  exists k : nat,
    (k < fuel)%nat
    /\ (forall p, page l <= p < page l + Z.of_nat k ->
          ~ stops (served get state p))
    /\ stops (served get state (page l + Z.of_nat k))
    /\ l' = mkLoop (page l + Z.of_nat k)
              (count l + total get state (pages (page l) (S k)))
              (requests l ++ map (url state per_page) (pages (page l) (S k))).
Proof.
  induction fuel as [ | fuel IH]; intros l l' H; [discriminate | ].
  destruct (stops_dec (served get state (page l))) as [Hs | Hs].
  - rewrite (while_true_stop get state l fuel Hs) in H. inversion H.
    exists 0%nat. split; [lia | ]. split; [intros; lia | ].
    rewrite Z.add_0_r. split; [exact Hs | ].
    cbn [pages map]. now rewrite total_one.
  - cbn [while_true] in H. rewrite (iteration_continue get state l Hs) in H.
    apply IH in H. destruct H as [k [Hk [Hgo [Hstop ->]]]].
    cbn [page count requests] in *.
    exists (Datatypes.S k). split; [lia | ]. split; [ | split].
    + intros p Hp. destruct (Z.eq_dec p (page l)) as [-> | Hne];
        [exact Hs | apply Hgo; lia].
    + now replace (page l + Z.of_nat (Datatypes.S k))
        with (page l + 1 + Z.of_nat k) by lia.
    + f_equal.
      * lia.
      * change (pages (page l) (Datatypes.S (Datatypes.S k)))
          with ([page l] ++ pages (page l + 1) (Datatypes.S k)).
        rewrite total_app, total_one. lia.
      * cbn [pages map]. now rewrite <- app_assoc.
Qed.

Lemma get_brewery_count_returned (state : string) (fuel : nat) r log :
  get_brewery_count get fuel state = Some (r, log) ->
  exists k : nat,
    (k < fuel)%nat
    /\ (forall p, 1 <= p <= Z.of_nat k -> ~ stops (served get state p))
    /\ stops (served get state (Z.of_nat k + 1))
    /\ log = map (url state per_page) (pages 1 (Datatypes.S k))
    /\ r = result state (total get state (pages 1 (Datatypes.S k))).
Proof.
  unfold get_brewery_count. intro H.
  destruct (while_true get fuel state (mkLoop 1 0 [])) as [l' | ] eqn:E;
    [ | discriminate].
  apply while_true_returned in E. destruct E as [k [Hk [Hgo [Hstop ->]]]].
  cbn [page count requests] in *. inversion H.
  exists k. split; [exact Hk | ]. split; [intros p Hp; apply Hgo; lia | ].
  split; [now replace (Z.of_nat k + 1) with (1 + Z.of_nat k) by lia | ].
  split; reflexivity.
Qed.

Lemma total_at_least (state : string) (ps : list Z) :
  (forall p, In p ps -> ~ stops (served get state p)) ->
  per_page * len ps <= total get state ps.
Proof.
  unfold len. induction ps as [ | p ps IH]; intro H.
  - unfold total. simpl. lia.
  - change (p :: ps) with ([p] ++ ps) at 2. rewrite total_app, total_one.
    assert (Hp : ~ stops (served get state p)) by (apply H; simpl; auto).
    assert (per_page <= counted (served get state p)).
    { rewrite counted_ok by (now apply not_stops_status).
      unfold stops in Hp. lia. }
    assert (per_page * Z.of_nat (List.length ps) <= total get state ps)
      by (apply IH; intros q Hq; apply H; simpl; auto).
    cbn [List.length]. lia.
Qed.

(** X1: a call that returns hands back a dictionary with exactly the keys
    [state] and [brewery_count], in this order: the state as given, and a
    count that is never negative.  There is no entry named [count]. *)
Theorem result_shape (state : string) (fuel : nat) r log :
  get_brewery_count get fuel state = Some (r, log) ->
  map fst r = ["state"; "brewery_count"]
  /\ dict_get "state" r = Some (VStr state)
  /\ (exists n, 0 <= n /\ dict_get "brewery_count" r = Some (VInt n))
  /\ dict_get "count" r = None.
Proof.
  intro H. apply get_brewery_count_returned in H.
  destruct H as [k [_ [_ [_ [_ ->]]]]].
  split; [reflexivity | ]. split; [reflexivity | ]. split; [ | reflexivity].
  eexists. split; [apply (total_nonneg get state) | reflexivity].
Qed.

(** X2: a call that returns has met a first page on which a stop condition
    holds: no earlier page stopped the loop, the requests made are those for
    page 1 up to that page, each once and in order, as many as passes were
    needed, and the dictionary returned holds the state and, as its
    [brewery_count], what these pages count for. *)
Theorem returned_call_stopped_at_first_stop (state : string) (fuel : nat) r log :
  get_brewery_count get fuel state = Some (r, log) ->
  exists k : nat,
    (k < fuel)%nat
    /\ (forall p, 1 <= p <= Z.of_nat k -> ~ stops (served get state p))
    /\ stops (served get state (Z.of_nat k + 1))
    /\ log = map (url state per_page) (pages 1 (Datatypes.S k))
    /\ r = [("state", VStr state);
            ("brewery_count", VInt (total get state (pages 1 (Datatypes.S k))))].
Proof. apply get_brewery_count_returned. Qed.

(** X3: a call makes at least one request, and every request but the last
    brought at least 200 items: the [brewery_count] of the dictionary
    returned is at least 200 times the number of requests less one. *)
Theorem count_at_least_full_pages (state : string) (fuel : nat) r log :
  get_brewery_count get fuel state = Some (r, log) ->
  (1 <= List.length log <= fuel)%nat
  /\ exists n,
       dict_get "brewery_count" r = Some (VInt n)
       /\ per_page * (len log - 1) <= n.
Proof.
  intro H. apply get_brewery_count_returned in H.
  destruct H as [k [Hk [Hgo [_ [-> ->]]]]].
  unfold len. rewrite length_map, pages_length. split; [lia | ].
  eexists. split; [reflexivity | ].
  rewrite pages_snoc, total_app, total_one.
  pose proof (counted_nonneg (served get state (1 + Z.of_nat k))).
  assert (per_page * len (pages 1 k) <= total get state (pages 1 k)).
  { apply total_at_least. intros p Hp. apply in_pages in Hp. apply Hgo. lia. }
  unfold len in *. rewrite pages_length in *. lia.
Qed.

(** X4: the loop has no bound of its own: against an endpoint whose every
    page comes with status 200 and at least 200 items the call never
    returns, however many passes it is given. *)
Theorem full_pages_for_ever_never_return (state : string) :
  (forall p, 1 <= p -> ~ stops (served get state p)) ->
  forall fuel, get_brewery_count get fuel state = None.
Proof.
  intros Hgo fuel. unfold get_brewery_count.
  replace fuel with (fuel + 0)%nat by lia.
  rewrite while_true_skip; [reflexivity | ].
  cbn [page]. intros p Hp. apply in_pages in Hp. apply Hgo. lia.
Qed.

End Loop_facts.

(** ** Two endpoints compared *)

Lemma not_len {A : Type} (l : list A) : not_ l = (len l =? 0).
Proof. destruct l; reflexivity. Qed.

(** One pass sees of a response its status and, when that is 200, the
    number of items. *)
Lemma iteration_agrees (get1 get2 : string -> Response) (state : string) (l : Loop) :
  status_code (served get1 state (page l)) = status_code (served get2 state (page l)) ->
  (status_code (served get1 state (page l)) = 200 ->
   len (json (served get1 state (page l))) = len (json (served get2 state (page l)))) ->
  iteration get1 state l = iteration get2 state l.
Proof.
  unfold iteration, served. intros Hstatus Hlen.
  rewrite <- Hstatus.
  destruct (Z.eqb_spec (status_code (get1 (url state per_page (page l)))) 200)
    as [E | E]; [ | reflexivity].
  cbn [negb]. rewrite !not_len, <- (Hlen E). reflexivity.
Qed.

Lemma while_true_agrees (get1 get2 : string -> Response) (state : string)
  (fuel : nat) : forall l,
  (forall p, page l <= p < page l + Z.of_nat fuel ->
     status_code (served get1 state p) = status_code (served get2 state p)
     /\ (status_code (served get1 state p) = 200 ->
         len (json (served get1 state p)) = len (json (served get2 state p)))) ->
  while_true get1 fuel state l = while_true get2 fuel state l.
Proof.
  induction fuel as [ | fuel IH]; intros l H; [reflexivity | ].
  cbn [while_true].
  destruct (H (page l)) as [Hstatus Hlen]; [lia | ].
  rewrite <- (iteration_agrees get1 get2 state l Hstatus Hlen).
  destruct (iteration get1 state l) as [l1 | l1] eqn:E; [reflexivity | ].
  apply IH. intros p Hp. apply H.
  assert (page l1 = page l + 1); [ | lia].
  unfold iteration in E.
  repeat match type of E with
         | (if ?c then _ else _) = _ => destruct c
         end; inversion E; reflexivity.
Qed.

(** X5: the call reads of the endpoint only the answers to its own requests,
    and of each answer only the status and, when that is 200, the number of
    records: two endpoints that agree on these for the pages 1 to [fuel] of
    the state give the same outcome, the same result and the same requests.
    What the records are, what a failed answer carries and what is served
    for other states never matters. *)
Theorem only_status_and_page_size_matter
  (get1 get2 : string -> Response) (state : string) (fuel : nat) :
  (forall p, 1 <= p <= Z.of_nat fuel ->
     status_code (served get1 state p) = status_code (served get2 state p)
     /\ (status_code (served get1 state p) = 200 ->
         len (json (served get1 state p)) = len (json (served get2 state p)))) ->
  get_brewery_count get1 fuel state = get_brewery_count get2 fuel state.
Proof.
  intro H. unfold get_brewery_count.
  rewrite (while_true_agrees get1 get2 state fuel (mkLoop 1 0 [])).
  - reflexivity.
  - cbn [page]. intros p Hp. apply H. lia.
Qed.

(** X6: a failure on the very first request cannot be told from a state
    without any brewery: both calls make the one request and return the
    dictionary with the state and the count 0. *)
Theorem first_failure_reads_as_no_brewery
  (get1 get2 : string -> Response) (state : string) (fuel : nat) :
  status_code (served get1 state 1) <> 200 ->
  status_code (served get2 state 1) = 200 ->
  json (served get2 state 1) = [] ->
  (0 < fuel)%nat ->
  get_brewery_count get1 fuel state
  = Some ([("state", VStr state); ("brewery_count", VInt 0)],
          [url state per_page 1])
  /\ get_brewery_count get2 fuel state = get_brewery_count get1 fuel state.
Proof.
  intros Hfail Hok Hempty Hfuel. apply Nat.ltb_lt in Hfuel.
  rewrite (get_brewery_count_run get1 state 0);
    [ | simpl; lia | left; exact Hfail].
  rewrite (get_brewery_count_run get2 state 0);
    [ | simpl; lia | right; left; exact Hempty].
  rewrite Hfuel. unfold total. cbn [pages map fold_right].
  unfold counted. rewrite Hok, Hempty.
  apply Z.eqb_neq in Hfail. rewrite Hfail. split; reflexivity.
Qed.

(** ** No request is made twice *)

Lemma append_cancel (s a b : string) : (s ++ a = s ++ b)%string -> a = b.
Proof.
  induction s as [ | c s IH]; simpl; intro H; [exact H | ].
  injection H as H. now apply IH.
Qed.

Lemma to_int_proper (z : Z) :
  Z.to_int z <> Decimal.Pos Decimal.Nil /\ Z.to_int z <> Decimal.Neg Decimal.Nil.
Proof.
  destruct z as [ | p | p]; simpl; split; try discriminate;
    intro E; injection E as E; now apply Unsigned.to_uint_nonnil in E.
Qed.

(** [str] can be read back: [int(str(z)) == z]. *)
Lemma str_read_back (z : Z) :
  option_map Z.of_int (NilZero.int_of_string (str z)) = Some z.
Proof.
  unfold str. destruct (to_int_proper z) as [H1 H2].
  rewrite NilZero.isi by assumption. simpl. now rewrite DecimalZ.of_to.
Qed.

Lemma str_injective (a b : Z) : str a = str b -> a = b.
Proof.
  intro H. pose proof (str_read_back a) as Ha. rewrite H, str_read_back in Ha.
  congruence.
Qed.

Lemma pages_NoDup (n : nat) : forall a, NoDup (pages a n).
Proof.
  induction n as [ | n IH]; intro a; cbn [pages]; constructor.
  - intro H. apply in_pages in H. lia.
  - apply IH.
Qed.

(** X7: the page number can be read back from the URL, so two requests of a
    call for the same state differ, and a call that returns has asked for no
    URL twice. *)
Theorem no_request_is_repeated (get : string -> Response) (state : string) :
  (forall p q : Z, url state per_page p = url state per_page q -> p = q)
  /\ forall fuel r log,
       get_brewery_count get fuel state = Some (r, log) -> NoDup log.
Proof.
  assert (Hinj : forall p q : Z,
             url state per_page p = url state per_page q -> p = q).
  { intros p q H. unfold url in H.
    repeat apply append_cancel in H. now apply str_injective. }
  split; [exact Hinj | ].
  intros fuel r log H. apply get_brewery_count_returned in H.
  destruct H as [k [_ [_ [_ [-> _]]]]].
  apply Injective_map_NoDup; [exact Hinj | apply pages_NoDup].
Qed.

(** ** The dispatcher, whatever the schedule *)

Section Dispatcher_facts.

Variable get : string -> Response.

Lemma steps_pending (state : string) (n : nat) (l : Loop) :
  while_true get n state l = None ->
  exists l', steps get n (Running state l) = Running state l'.
Proof.
  revert l. induction n as [ | n IH]; intros l H.
  - now exists l.
  - cbn [while_true] in H. cbn [steps task_step].
    destruct (iteration get state l) as [l1 | l1]; [discriminate | now apply IH].
Qed.

Lemma gather_waits (t : Task) (pool : list Task) :
  gather (t :: pool) <> None -> gather pool <> None.
Proof.
  cbn [gather]. destruct t as [state l | r]; [congruence | ].
  destruct (gather pool); congruence.
Qed.

(** X9: [gather] is a barrier: as long as the call for one of the states has
    not had the passes it needs to return, the dispatcher hands back nothing,
    not even the results of the calls that have returned. *)
Theorem one_unfinished_call_holds_all_back : forall states schedule i state,
  nth_error states i = Some state ->
  get_brewery_count get (turns i schedule) state = None ->
  get_brewery_counts_for_states get schedule states = None.
Proof.
  unfold get_brewery_counts_for_states.
  induction states as [ | s states IH]; intros schedule i state Hi Hnone.
  - destruct i; discriminate.
  - cbn [tasks map]. rewrite run_cons.
    destruct i as [ | i]; cbn [nth_error] in Hi.
    + inversion Hi; subst s. unfold get_brewery_count in Hnone.
      destruct (while_true get (turns 0 schedule) state (mkLoop 1 0 []))
        as [l' | ] eqn:E; [discriminate | ].
      destruct (steps_pending _ _ _ E) as [l' ->]. reflexivity.
    + destruct (gather (steps get (turns 0 schedule) (Running s (mkLoop 1 0 []))
                          :: run get (shift schedule) (map _ states)))
        eqn:E; [ | reflexivity].
      exfalso. apply (gather_waits _ _ ltac:(rewrite E; discriminate)).
      apply (IH (shift schedule) i state Hi). now rewrite turns_shift.
Qed.

(** X11: for a single state the dispatcher is the wrapped call: under any
    schedule it returns the one-element list of what [get_brewery_count]
    returns within the passes the schedule gives position 0, and nothing as
    long as that call has not returned. *)
Theorem single_state_is_the_wrapped_call (schedule : list nat) (state : string) :
  get_brewery_counts_for_states get schedule [state]
  = match get_brewery_count get (turns 0 schedule) state with
    | Some (r, _) => Some [r]
    | None => None
    end.
Proof.
  unfold get_brewery_counts_for_states, get_brewery_count.
  cbn [tasks map]. rewrite run_cons, run_nil.
  destruct (while_true get (turns 0 schedule) state (mkLoop 1 0 []))
    as [l' | ] eqn:E.
  - now rewrite (steps_while get state _ _ _ E (turns 0 schedule)).
  - destruct (steps_pending _ _ _ E) as [l' ->]. reflexivity.
Qed.

End Dispatcher_facts.

(** ** The further properties on the mocked endpoints *)

(** Ohio's three-page call has the two keys and the count 457. *)
Lemma result_shape_witness :
  map fst (result "ohio" 457) = ["state"; "brewery_count"]
  /\ dict_get "state" (result "ohio" 457) = Some (VStr "ohio")
  /\ (exists n, 0 <= n /\ dict_get "brewery_count" (result "ohio" 457) = Some (VInt n))
  /\ dict_get "count" (result "ohio" 457) = None.
Proof.
  apply (result_shape ohio_457 "ohio" 3
           (result "ohio" 457)
           [url "ohio" 200 1; url "ohio" 200 2; url "ohio" 200 3]).
  vm_compute. reflexivity.
Defined.

(** Ohio's call stopped at some first page, within its three passes. *)
Lemma returned_call_stopped_at_first_stop_witness :
  exists k : nat,
    (k < 3)%nat
    /\ (forall p, 1 <= p <= Z.of_nat k -> ~ stops (served ohio_457 "ohio" p))
    /\ stops (served ohio_457 "ohio" (Z.of_nat k + 1))
    /\ [url "ohio" 200 1; url "ohio" 200 2; url "ohio" 200 3]
       = map (url "ohio" per_page) (pages 1 (Datatypes.S k))
    /\ [("state", VStr "ohio"); ("brewery_count", VInt 457)]
       = [("state", VStr "ohio");
          ("brewery_count", VInt (total ohio_457 "ohio" (pages 1 (Datatypes.S k))))].
Proof.
  apply (returned_call_stopped_at_first_stop ohio_457 "ohio" 3).
  vm_compute. reflexivity.
Defined.

(** Three requests for Ohio: at least 400 breweries. *)
Lemma count_at_least_full_pages_witness :
  (1 <= List.length [url "ohio" 200 1; url "ohio" 200 2; url "ohio" 200 3] <= 3)%nat
  /\ exists n,
       dict_get "brewery_count"
         [("state", VStr "ohio"); ("brewery_count", VInt 457)] = Some (VInt n)
       /\ per_page
          * (len [url "ohio" 200 1; url "ohio" 200 2; url "ohio" 200 3] - 1)
          <= n.
Proof.
  apply (count_at_least_full_pages ohio_457 "ohio" 3
           [("state", VStr "ohio"); ("brewery_count", VInt 457)]
           [url "ohio" 200 1; url "ohio" 200 2; url "ohio" 200 3]).
  vm_compute. reflexivity.
Defined.

(** Against the endless endpoint no amount of fuel is enough. *)
Lemma full_pages_for_ever_never_return_witness :
  get_brewery_count endless 50 "ohio" = None.
Proof.
  apply (full_pages_for_ever_never_return endless "ohio").
  intros p _. apply mock_goes. vm_compute. reflexivity.
Defined.

(** The two Ohio endpoints serve different records in pages of equal size. *)
Lemma only_status_and_page_size_matter_witness :
  get_brewery_count ohio_457 3 "ohio" = get_brewery_count ohio_named 3 "ohio".
Proof.
  apply (only_status_and_page_size_matter ohio_457 ohio_named "ohio" 3).
  intros p Hp.
  assert (p = 1 \/ p = 2 \/ p = 3) as [-> | [-> | ->]] by (simpl in Hp; lia);
    vm_compute; split; reflexivity.
Defined.

(** Guam served by an endpoint that is down, and by one that knows no
    brewery there. *)
Lemma first_failure_reads_as_no_brewery_witness :
  get_brewery_count nothing_served 1 "guam"
  = Some ([("state", VStr "guam"); ("brewery_count", VInt 0)],
          [url "guam" per_page 1])
  /\ get_brewery_count guam_0 1 "guam" = get_brewery_count nothing_served 1 "guam".
Proof.
  apply (first_failure_reads_as_no_brewery nothing_served guam_0 "guam" 1).
  - intro E. vm_compute in E. discriminate E.
  - vm_compute. reflexivity.
  - vm_compute. reflexivity.
  - lia.
Defined.

(** With one pass each, Ohio has not returned, and nothing is handed back. *)
Lemma one_unfinished_call_holds_all_back_witness :
  get_brewery_counts_for_states three_states one_pass_each ohio_guam_iowa = None.
Proof.
  apply (one_unfinished_call_holds_all_back three_states ohio_guam_iowa
           one_pass_each 0 "ohio").
  - reflexivity.
  - vm_compute. reflexivity.
Defined.


(** ** The count against the number of records *)

(** X12: against an endpoint that holds [records] records for the state and
    serves them in pages of 200, the call returns the dictionary with the
    state and, as its [brewery_count], exactly [records], whatever that
    number is, after [records / 200 + 1] requests. *)
Theorem count_is_number_of_records
  (get : string -> Response) (state : string) (records : Z) (fuel : nat) :
  holds get state records ->
  (Z.to_nat (records / per_page) < fuel)%nat ->
  exists log,
    get_brewery_count get fuel state
    = Some ([("state", VStr state); ("brewery_count", VInt records)], log)
    /\ len log = records / per_page + 1.
Proof.
  intros Hholds Hfuel.
  assert (Hq : 0 <= records / per_page).
  { destruct Hholds as [Hpos _]. unfold per_page. Z.div_mod_to_equations. lia. }
  rewrite (get_brewery_count_holds get state records Hholds).
  apply Nat.ltb_lt in Hfuel. rewrite Hfuel.
  eexists. split; [reflexivity | ].
  unfold len. rewrite length_map, pages_length. lia.
Qed.

(** Ohio's 457 records: three requests. *)
Lemma count_is_number_of_records_witness :
  exists log,
    get_brewery_count ohio_457 3 "ohio"
    = Some ([("state", VStr "ohio"); ("brewery_count", VInt 457)], log)
    /\ len log = 457 / per_page + 1.
Proof.
  apply (count_is_number_of_records ohio_457 "ohio" 457 3).
  - exact ohio_457_holds.
  - vm_compute. lia.
Defined.
